(** * generate_link_secret.py: a verified model

    The script draws 32 bytes from the operating system's secure random
    source, renders them as lowercase hexadecimal text, writes the text to
    [os.path.join(directory, file_name)] and returns that path.

    The Python function is embedded as a computation in a small
    state-and-exception monad over a [world]: the entropy tape, the file
    tree, the table of open descriptors, standard output and the log of
    the effects performed so far. *)

From Stdlib Require Import NArith Ascii String.
From Stdlib.Strings Require Import Byte.
From stdpp Require Import base gmap strings list.

(** ** Bytes and their hexadecimal text (bytes.hex) *)

Module Hex.

(** The digit table of CPython, [Py_hexdigits]. *)
Definition Py_hexdigits : list ascii :=
  list_ascii_of_string "0123456789abcdef".

Definition digit (n : N) : ascii :=
  nth (N.to_nat n) Py_hexdigits "0"%char.

(** One byte [c] becomes [Py_hexdigits[c >> 4]] then
    [Py_hexdigits[c & 0x0f]]. *)
Definition hex_byte (b : byte) : list ascii :=
  let c := Byte.to_N b in
  [digit (N.shiftr c 4); digit (N.land c 15)].

Fixpoint hex_chars (bs : list byte) : list ascii :=
  match bs with
  | [] => []
  | b :: bs' => hex_byte b ++ hex_chars bs'
  end.

(** [bytes.hex()] with no separator. *)
Definition hex (bs : list byte) : string :=
  string_of_list_ascii (hex_chars bs).

(** The value of a hexadecimal digit as [bytes.fromhex] reads it: either
    case is accepted. *)
Definition digit_value (c : ascii) : option N :=
  let n := N_of_ascii c in
  if (48 <=? n)%N && (n <=? 57)%N then Some (n - 48)%N
  else if (97 <=? n)%N && (n <=? 102)%N then Some (n - 87)%N
  else if (65 <=? n)%N && (n <=? 70)%N then Some (n - 55)%N
  else None.

(** ASCII whitespace, which [bytes.fromhex] skips between bytes. *)
Definition is_space (c : ascii) : bool :=
  let n := N_of_ascii c in
  (n =? 32)%N || ((9 <=? n)%N && (n <=? 13)%N).

Definition byte_of_nibbles (hi lo : N) : option byte :=
  Byte.of_N (hi * 16 + lo).

Fixpoint fromhex_chars (cs : list ascii) : option (list byte) :=
  match cs with
  | [] => Some []
  | c :: rest =>
      if is_space c then fromhex_chars rest
      else match rest with
           | [] => None
           | c' :: rest' =>
               match digit_value c, digit_value c' with
               | Some hi, Some lo =>
                   match byte_of_nibbles hi lo, fromhex_chars rest' with
                   | Some b, Some bs => Some (b :: bs)
                   | _, _ => None
                   end
               | _, _ => None
               end
           end
  end.

(** [bytes.fromhex(s)]; [None] stands for its ValueError. *)
Definition fromhex (s : string) : option (list byte) :=
  fromhex_chars (list_ascii_of_string s).

(** The characters of the class [[0-9a-f]]. *)
Definition is_lower_hex (c : ascii) : bool :=
  let n := N_of_ascii c in
  ((48 <=? n)%N && (n <=? 57)%N) || ((97 <=? n)%N && (n <=? 102)%N).

End Hex.

(** ** The world the script runs in *)

Inductive errno :=
  ENOENT | EACCES | EISDIR | ENOTDIR | ENOSPC | ENAMETOOLONG.

(** The Python exceptions that can arise: OSError with its errno, and
    ValueError, which [open] raises for a path with a NUL character and
    a closed file object raises when it is used. *)
Inductive exn :=
| OSError (e : errno)
| ValueError (msg : string).

(** A node of the file tree.  Paths name nodes as they are spelled,
    relative to the working directory of the process, which is the node
    ["."]; different spellings of one path and links are not identified. *)
Inductive node :=
| Dir (writable : bool)
| File (writable : bool) (content : string).

(** What the process did to its environment, in order. *)
Inductive effect :=
| Urandom (n : nat)
| Opened (path : string) (fd : nat)
| OpenFailed (path : string) (e : errno)
| Wrote (fd : nat) (data : string)
| Closed (fd : nat)
| Printed (text : string).

Record world := World {
  entropy : nat → byte;        (* the output of the kernel's CSPRNG *)
  drawn : nat;                 (* how much of it has been consumed *)
  fs : gmap string node;       (* the file tree *)
  disk_free : nat;             (* characters the device still accepts *)
  fds : gmap nat string;       (* open descriptors and their paths *)
  stdout : string;
  log : list effect
}.

Definition set_drawn (n : nat) (w : world) : world :=
  World (entropy w) n (fs w) (disk_free w) (fds w) (stdout w) (log w).
Definition set_fs (t : gmap string node) (w : world) : world :=
  World (entropy w) (drawn w) t (disk_free w) (fds w) (stdout w) (log w).
Definition set_disk_free (n : nat) (w : world) : world :=
  World (entropy w) (drawn w) (fs w) n (fds w) (stdout w) (log w).
Definition set_fds (t : gmap nat string) (w : world) : world :=
  World (entropy w) (drawn w) (fs w) (disk_free w) t (stdout w) (log w).
Definition set_stdout (s : string) (w : world) : world :=
  World (entropy w) (drawn w) (fs w) (disk_free w) (fds w) s (log w).
Definition emit (e : effect) (w : world) : world :=
  World (entropy w) (drawn w) (fs w) (disk_free w) (fds w) (stdout w)
        (log w ++ [e]).

(** The same world with another entropy tape. *)
Definition set_entropy (e : nat → byte) (w : world) : world :=
  World e (drawn w) (fs w) (disk_free w) (fds w) (stdout w) (log w).

(** ** Computations that read and change the world and may raise *)

Inductive result (A : Type) :=
| Ok (a : A)
| Raise (e : exn).
Arguments Ok {A} a.
Arguments Raise {A} e.

Definition M (A : Type) : Type := world → result A * world.

Definition ret {A} (a : A) : M A := λ w, (Ok a, w).
Definition raise {A} (e : exn) : M A := λ w, (Raise e, w).
Definition bind {A B} (c : M A) (k : A → M B) : M B :=
  λ w, match c w with
       | (Ok a, w') => k a w'
       | (Raise e, w') => (Raise e, w')
       end.

Notation "x <- c ;; k" := (bind c (λ x, k))
  (at level 100, c at next level, right associativity).

(** ** The library calls the script makes *)

(** [secrets.token_bytes(n)], that is [os.urandom(n)]: the next [n] bytes
    of the entropy tape. *)
Definition tape (w : world) (n : nat) : list byte :=
  map (entropy w) (seq (drawn w) n).

Definition token_bytes (n : nat) : M (list byte) :=
  λ w, (Ok (tape w n), emit (Urandom n) (set_drawn (drawn w + n) w)).

Module posixpath.

Definition sep : ascii := "/"%char.

Definition startswith_sep (s : string) : bool :=
  match s with
  | String c _ => Ascii.eqb c sep
  | EmptyString => false
  end.

Definition endswith_sep (s : string) : bool :=
  match rev (list_ascii_of_string s) with
  | c :: _ => Ascii.eqb c sep
  | [] => false
  end.

(** [os.path.isabs(s)]: the path starts with the separator. *)
Definition isabs (s : string) : bool := startswith_sep s.

(** [os.path.join(a, b)] on a POSIX platform:
<<
    if b.startswith(sep): path = b
    elif not path or path.endswith(sep): path += b
    else: path += sep + b
>> *)
Definition join (a b : string) : string :=
  if startswith_sep b then b
  else if String.eqb a "" || endswith_sep a then a +:+ b
  else a +:+ "/" +:+ b.

Fixpoint take_while (f : ascii → bool) (l : list ascii) : list ascii :=
  match l with
  | c :: l' => if f c then c :: take_while f l' else []
  | [] => []
  end.

Fixpoint drop_while (f : ascii → bool) (l : list ascii) : list ascii :=
  match l with
  | c :: l' => if f c then drop_while f l' else l
  | [] => []
  end.

(** The text after the last separator, [os.path.basename]. *)
Definition basename (p : string) : string :=
  string_of_list_ascii
    (rev (take_while (λ c, negb (Ascii.eqb c sep))
                     (rev (list_ascii_of_string p)))).

(** The directory that holds the last component, [os.path.dirname]: the
    text up to the last separator, without trailing separators unless it
    is made of separators only.  The empty result is the working
    directory, spelled ["."]. *)
Definition parent (p : string) : string :=
  let head := drop_while (λ c, negb (Ascii.eqb c sep))
                         (rev (list_ascii_of_string p)) in
  let stripped := drop_while (λ c, Ascii.eqb c sep) head in
  match head, stripped with
  | [], _ => "."
  | _, [] => string_of_list_ascii (rev head)
  | _, _ => string_of_list_ascii (rev stripped)
  end.

End posixpath.

(** The lowest descriptor number not in use, as POSIX allocates them. *)
Fixpoint lowest_from (used : gset nat) (n fuel : nat) : nat :=
  match fuel with
  | 0 => n
  | S k => if decide (n ∈ used) then lowest_from used (S n) k else n
  end.

Definition lowest_free (t : gmap nat string) : nat :=
  lowest_from (dom t) 0 (size (dom t)).

(** A NUL character in the text.  Python's [open] refuses such a path
    with ValueError("embedded null byte") before any system call. *)
Definition has_nul (s : string) : bool :=
  existsb (λ c, Ascii.eqb c zero) (list_ascii_of_string s).

(** The limits of the platform (Linux): a path must be shorter than
    [PATH_MAX] bytes and its last component no longer than [NAME_MAX]. *)
Definition PATH_MAX : nat := 4096.
Definition NAME_MAX : nat := 255.

(** What [open(path, "w")] does with the file tree (O_WRONLY | O_CREAT |
    O_TRUNC), or the exception it raises: the path must have no NUL and
    be of a length the platform accepts; the directory that holds the
    last component must exist; an existing regular file must be writable
    and is emptied; a missing file is created in a writable directory.
    The result is the tree after the call and the number of characters
    the truncation gave back. *)
Definition open_w (t : gmap string node) (p : string)
  : exn + (gmap string node * nat) :=
  if has_nul p then inl (ValueError "embedded null byte")
  else if String.eqb p "" then inl (OSError ENOENT)
  else if (PATH_MAX <=? String.length p)%nat then inl (OSError ENAMETOOLONG)
  else match t !! posixpath.parent p with
       | None => inl (OSError ENOENT)
       | Some (File _ _) => inl (OSError ENOTDIR)
       | Some (Dir dw) =>
           let name := posixpath.basename p in
           if (NAME_MAX <? String.length name)%nat
           then inl (OSError ENAMETOOLONG)
           else if String.eqb name "" || String.eqb name "."
                   || String.eqb name ".."
           then inl (OSError EISDIR)
           else match t !! p with
                | Some (Dir _) => inl (OSError EISDIR)
                | Some (File fw old) =>
                    if fw then inr (<[p := File fw ""]> t, String.length old)
                    else inl (OSError EACCES)
                | None =>
                    if dw then inr (<[p := File true ""]> t, 0)
                    else inl (OSError EACCES)
                end
       end.

(** What a failed open adds to the log: the failed system call, or
    nothing when the path was refused before any call. *)
Definition open_failure_effects (p : string) (ex : exn) : list effect :=
  match ex with
  | OSError e => [OpenFailed p e]
  | ValueError _ => []
  end.

(** [open(path, "w")]: the file object is represented by its descriptor. *)
Definition open_ (p : string) : M nat :=
  λ w, match open_w (fs w) p with
       | inl (OSError e) => (Raise (OSError e), emit (OpenFailed p e) w)
       | inl ex => (Raise ex, w)
       | inr (t, freed) =>
           let fd := lowest_free (fds w) in
           (Ok fd,
            emit (Opened p fd)
              (set_fds (<[fd := p]> (fds w))
                 (set_disk_free (disk_free w + freed) (set_fs t w))))
       end.

(** [file.write(s)].  Buffering is abstracted away: the characters reach
    the file at the call.  When the device has room for only a part of
    [s], that part is written and OSError(ENOSPC) is raised; limits of
    the process on the size of a file are not modelled.  A
    descriptor whose path no longer names a regular file writes to an
    unlinked file, which nobody can see. *)
Definition append_to (p s : string) (t : gmap string node)
  : gmap string node :=
  match t !! p with
  | Some (File fw content) => <[p := File fw (content +:+ s)]> t
  | _ => t
  end.

Definition file_write (fd : nat) (s : string) : M nat :=
  λ w, match fds w !! fd with
       | None => (Raise (ValueError "I/O operation on closed file."), w)
       | Some p =>
           let n := String.length s in
           if (n <=? disk_free w)%nat then
             (Ok n,
              emit (Wrote fd s)
                (set_disk_free (disk_free w - n)
                   (set_fs (append_to p s (fs w)) w)))
           else
             let part := String.substring 0 (disk_free w) s in
             (Raise (OSError ENOSPC),
              emit (Wrote fd part)
                (set_disk_free 0 (set_fs (append_to p part (fs w)) w)))
       end.

(** [file.close()]; closing a closed file does nothing. *)
Definition file_close (fd : nat) : M unit :=
  λ w, match fds w !! fd with
       | None => (Ok tt, w)
       | Some _ => (Ok tt, emit (Closed fd) (set_fds (delete fd (fds w)) w))
       end.

(** [with open(p, "w") as file: body]: the body runs with the file
    object; [__exit__] closes the object whether the body returned or
    raised, and the body's exception, if any, is raised again.  The file
    object is known by its descriptor, which is right for a body that
    does not itself close the file, as the one of the script. *)
Definition with_open {A} (p : string) (body : nat → M A) : M A :=
  file <- open_ p ;;
  λ w, match body file w with
       | (Ok a, w1) =>
           match file_close file w1 with
           | (Ok _, w2) => (Ok a, w2)
           | (Raise e, w2) => (Raise e, w2)
           end
       | (Raise e, w1) =>
           match file_close file w1 with
           | (Ok _, w2) => (Raise e, w2)
           | (Raise e', w2) => (Raise e', w2)
           end
       end.

(** [print(s)]: the text and a newline go to standard output. *)
Definition newline : string := String (ascii_of_nat 10) EmptyString.

Definition print (s : string) : M unit :=
  λ w, (Ok tt,
        emit (Printed s) (set_stdout (stdout w +:+ s +:+ newline) w)).

(** ** The script *)

Definition generate_and_write_secret (directory file_name : string)
  : M string :=
  random_binary <- token_bytes 32 ;;
  let hex_representation := Hex.hex random_binary in
  let file_path := posixpath.join directory file_name in
  _ <- with_open file_path (λ file, file_write file hex_representation) ;;
  ret file_path.

(** The block under [if __name__ == "__main__":]. *)
Definition main : M unit :=
  let directory := "./crypto_data" in
  let file_name := "link_secret.txt" in
  file_path <- generate_and_write_secret directory file_name ;;
  print ("Saved LinkSecretFile to " +:+ file_path).

(** The module body after its two imports, run with the value of
    [__name__].  The imports of [os] and [secrets] only bind the names
    the function uses and are not modelled. *)
Definition script (dunder_name : string) : M unit :=
  if String.eqb dunder_name "__main__" then main else ret tt.

(** ** Sample worlds *)

Definition sample_entropy (i : nat) : byte :=
  match Byte.of_N (N.of_nat ((i * 37 + 11) mod 256)) with
  | Some b => b
  | None => x00
  end.

Definition sample_tree : gmap string node :=
  <["." := Dir true]> (<["./crypto_data" := Dir true]>
  (<["/" := Dir true]> (<["/tmp" := Dir true]>
  (<["/ro" := Dir false]> (<["/ro/keep.txt" := File true "old"]> ∅))))).

Definition std_fds : gmap nat string :=
  <[0 := "/dev/stdin"]> (<[1 := "/dev/stdout"]> (<[2 := "/dev/stderr"]> ∅)).

Definition sample_world : world :=
  World sample_entropy 0 sample_tree 1000 std_fds "" [].


(** A device with room for ten more characters. *)
Definition full_world : world := set_disk_free 10 sample_world.

(** The world after a first call from [sample_world], and after a second
    one. *)
Definition sample_once : world :=
  (generate_and_write_secret "/tmp" "out.txt" sample_world).2.

Definition sample_twice : world :=
  (generate_and_write_secret "/tmp" "out.txt" sample_once).2.

(** The effects a call on [path] through descriptor [fd] may have. *)
Definition touches (path : string) (fd : nat) (e : effect) : Prop :=
  match e with
  | Urandom _ => True
  | Opened q fd' => q = path ∧ fd' = fd
  | OpenFailed q _ => q = path
  | Wrote fd' _ => fd' = fd
  | Closed fd' => fd' = fd
  | Printed _ => False
  end.

(** * Lemmas *)

Example hex_deadbeef :
  Hex.hex [xde; xad; xbe; xef; x00; x0a] = "deadbeef000a".
Proof. reflexivity. Qed.

Example fromhex_deadbeef :
  Hex.fromhex "DEad be EF" = Some [xde; xad; xbe; xef].
Proof. reflexivity. Qed.

(** ** Facts about the hexadecimal text *)

Section HexFacts.

Import Hex.

Lemma length_of_list_ascii (l : list ascii) :
  String.length (string_of_list_ascii l) = length l.
Proof. induction l as [|c l IH]; simpl; [done | by rewrite IH]. Qed.

Lemma hex_chars_length (bs : list byte) :
  length (hex_chars bs) = 2 * length bs.
Proof. induction bs as [|b bs IH]; simpl; lia. Qed.

Lemma hex_length (bs : list byte) :
  String.length (hex bs) = 2 * length bs.
Proof. unfold hex. by rewrite length_of_list_ascii, hex_chars_length. Qed.

Lemma hex_byte_lower (b : byte) :
  Forall (λ c, is_lower_hex c = true) (hex_byte b).
Proof. destruct b; repeat constructor. Qed.

Lemma hex_chars_lower (bs : list byte) :
  Forall (λ c, is_lower_hex c = true) (hex_chars bs).
Proof.
  induction bs as [|b bs IH]; [constructor |].
  change (hex_chars (b :: bs)) with (hex_byte b ++ hex_chars bs).
  apply Forall_app. split; [apply hex_byte_lower | exact IH].
Qed.

Lemma hex_lower (bs : list byte) :
  Forall (λ c, is_lower_hex c = true) (list_ascii_of_string (hex bs)).
Proof.
  unfold hex. rewrite list_ascii_of_string_of_list_ascii.
  apply hex_chars_lower.
Qed.

(** Reading back the two digits of one byte. *)
Lemma fromhex_hex_byte (b : byte) (rest : list ascii) :
  fromhex_chars (hex_byte b ++ rest) =
  match fromhex_chars rest with
  | Some bs => Some (b :: bs)
  | None => None
  end.
Proof. destruct b; reflexivity. Qed.

Lemma fromhex_hex_chars (bs : list byte) :
  fromhex_chars (hex_chars bs) = Some bs.
Proof.
  induction bs as [|b bs IH]; [done |].
  change (hex_chars (b :: bs)) with (hex_byte b ++ hex_chars bs).
  by rewrite fromhex_hex_byte, IH.
Qed.

Lemma fromhex_hex (bs : list byte) : fromhex (hex bs) = Some bs.
Proof.
  unfold fromhex, hex. rewrite list_ascii_of_string_of_list_ascii.
  apply fromhex_hex_chars.
Qed.

Lemma hex_inj (a b : list byte) : hex a = hex b → a = b.
Proof.
  intros E. apply (f_equal fromhex) in E.
  rewrite !fromhex_hex in E. congruence.
Qed.

(** A text of hexadecimal digits does not end in a newline. *)
Lemma lower_hex_no_newline (l pre : list ascii) :
  Forall (λ c, is_lower_hex c = true) l →
  l ≠ pre ++ [ascii_of_nat 10].
Proof.
  intros F E. subst l. apply Forall_app in F as [_ F].
  inversion F as [|? ? Hc _]. discriminate Hc.
Qed.

End HexFacts.

(** ** Facts about descriptors *)

Lemma lowest_from_spec (used : gset nat) (fuel n : nat) :
  lowest_from used n fuel ∉ used ∨ set_seq n (S fuel) ⊆ used.
Proof.
  revert n. induction fuel as [|k IH]; intros n; cbn [lowest_from].
  - destruct (decide (n ∈ used)) as [Hin|]; [right | by left].
    intros x Hx. apply elem_of_set_seq in Hx.
    by replace x with n by lia.
  - destruct (decide (n ∈ used)) as [Hin|]; [| by left].
    destruct (IH (S n)) as [Hfree | Hfull]; [by left | right].
    intros x Hx. apply elem_of_set_seq in Hx.
    destruct (decide (x = n)) as [-> | Hne]; [done |].
    apply Hfull, elem_of_set_seq. lia.
Qed.

Lemma lowest_free_fresh (t : gmap nat string) : t !! lowest_free t = None.
Proof.
  apply not_elem_of_dom. unfold lowest_free.
  destruct (lowest_from_spec (dom t) (size (dom t)) 0) as [H | H]; [done |].
  apply subseteq_size in H. rewrite size_set_seq in H. lia.
Qed.

(** ** Facts about opening a file for writing *)

Lemma open_w_creates (t t' : gmap string node) (p : string) (freed : nat) :
  open_w t p = inr (t', freed) → t' = <[p := File true ""]> t.
Proof.
  unfold open_w. intros H.
  destruct (has_nul p); [done |].
  destruct (String.eqb p ""); [done |].
  destruct (PATH_MAX <=? _)%nat; [done |].
  destruct (t !! posixpath.parent p) as [[dw | ? ?] |]; try done.
  destruct (NAME_MAX <? _)%nat; [done |].
  destruct (_ || _); [done |].
  destruct (t !! p) as [[? | [|] old] |]; try done.
  - by inversion H.
  - destruct dw; [by inversion H | done].
Qed.


Lemma open_failure_effects_touch (p : string) (fd : nat) (ex : exn) :
  Forall (touches p fd) (open_failure_effects p ex).
Proof. destruct ex; by repeat constructor. Qed.

Lemma open_failure_effects_no_open (p q : string) (fd : nat) (ex : exn) :
  ¬ In (Opened q fd) (open_failure_effects p ex).
Proof.
  destruct ex; intros H; [| destruct H].
  destruct H as [E | []]. discriminate E.
Qed.



(** ** The three ways a call can go *)

(** Reduce the projections of an updated world, and nothing else. *)
Ltac world_simpl :=
  unfold emit, set_drawn, set_fs, set_disk_free, set_fds, set_stdout;
  cbn [entropy drawn fs disk_free fds stdout log].

Section Outcomes.

Variables (w : world) (directory file_name : string).

Local Abbreviation p := (posixpath.join directory file_name).
Local Abbreviation h := (Hex.hex (tape w 32)).
Local Abbreviation fd := (lowest_free (fds w)).

Lemma tape_length (n : nat) : length (tape w n) = n.
Proof. unfold tape. by rewrite length_map, length_seq. Qed.

Lemma call_open_fails (ex : exn) :
  open_w (fs w) p = inl ex →
  generate_and_write_secret directory file_name w =
  (Raise ex,
   World (entropy w) (drawn w + 32) (fs w) (disk_free w) (fds w) (stdout w)
         (log w ++ Urandom 32 :: open_failure_effects p ex)).
Proof.
  intros Ho. unfold generate_and_write_secret, bind, with_open, bind,
    token_bytes, open_. world_simpl.
  rewrite Ho. destruct ex; world_simpl; [| done].
  by rewrite <- app_assoc.
Qed.

Lemma call_writes (t : gmap string node) (freed : nat) :
  open_w (fs w) p = inr (t, freed) →
  64 ≤ disk_free w + freed →
  generate_and_write_secret directory file_name w =
  (Ok p,
   World (entropy w) (drawn w + 32) (<[p := File true h]> (fs w))
         (disk_free w + freed - 64) (fds w) (stdout w)
         (log w ++ [Urandom 32; Opened p fd; Wrote fd h; Closed fd])).
Proof.
  intros Ho Hroom. pose proof (open_w_creates _ _ _ _ Ho) as ->.
  unfold generate_and_write_secret, bind, with_open, bind,
    token_bytes, open_. world_simpl.
  rewrite Ho.
  unfold file_write. world_simpl.
  rewrite lookup_insert_eq.
  assert (Hlen : String.length h = 64)
    by (by rewrite hex_length, tape_length).
  rewrite Hlen.
  destruct (Nat.leb_spec 64 (disk_free w + freed)) as [_ | ?]; [| lia].
  unfold file_close. world_simpl.
  rewrite lookup_insert_eq.
  unfold append_to. rewrite lookup_insert_eq, insert_insert_eq.
  rewrite delete_insert_id by apply lowest_free_fresh.
  world_simpl. unfold ret.
  rewrite <- !app_assoc. reflexivity.
Qed.

Lemma call_write_fails (t : gmap string node) (freed : nat) :
  open_w (fs w) p = inr (t, freed) →
  disk_free w + freed < 64 →
  generate_and_write_secret directory file_name w =
  (Raise (OSError ENOSPC),
   World (entropy w) (drawn w + 32)
         (<[p := File true (String.substring 0 (disk_free w + freed) h)]>
            (fs w))
         0 (fds w) (stdout w)
         (log w ++ [Urandom 32; Opened p fd;
                    Wrote fd (String.substring 0 (disk_free w + freed) h);
                    Closed fd])).
Proof.
  intros Ho Hroom. pose proof (open_w_creates _ _ _ _ Ho) as ->.
  unfold generate_and_write_secret, bind, with_open, bind,
    token_bytes, open_. world_simpl.
  rewrite Ho.
  unfold file_write. world_simpl.
  rewrite lookup_insert_eq.
  assert (Hlen : String.length h = 64)
    by (by rewrite hex_length, tape_length).
  rewrite Hlen.
  destruct (Nat.leb_spec 64 (disk_free w + freed)) as [? | _]; [lia |].
  unfold file_close. world_simpl.
  rewrite lookup_insert_eq.
  unfold append_to. rewrite lookup_insert_eq, insert_insert_eq.
  rewrite delete_insert_id by apply lowest_free_fresh.
  world_simpl. unfold ret.
  rewrite <- !app_assoc. reflexivity.
Qed.

End Outcomes.

(** A call that returns went through the second of the three ways. *)
Lemma call_returns_inv (w w' : world) (directory file_name path : string) :
  generate_and_write_secret directory file_name w = (Ok path, w') →
  ∃ freed,
    path = posixpath.join directory file_name ∧
    w' = World (entropy w) (drawn w + 32)
               (<[path := File true (Hex.hex (tape w 32))]> (fs w))
               (disk_free w + freed - 64) (fds w) (stdout w)
               (log w ++ [Urandom 32;
                          Opened path (lowest_free (fds w));
                          Wrote (lowest_free (fds w)) (Hex.hex (tape w 32));
                          Closed (lowest_free (fds w))]).
Proof.
  intros Hrun.
  destruct (open_w (fs w) (posixpath.join directory file_name))
    as [e | [t freed]] eqn:Ho.
  - rewrite (call_open_fails _ _ _ _ Ho) in Hrun. discriminate Hrun.
  - destruct (le_lt_dec 64 (disk_free w + freed)) as [Hroom | Hroom].
    + rewrite (call_writes _ _ _ _ _ Ho Hroom) in Hrun.
      inversion Hrun; subst. by exists freed.
    + rewrite (call_write_fails _ _ _ _ _ Ho Hroom) in Hrun.
      discriminate Hrun.
Qed.

(** Whatever the outcome, a call changes the file tree at the joined path
    only, leaves standard output and the descriptor table as they were,
    and adds to the log. *)
Lemma call_frame (w : world) (directory file_name : string) :
  let after := (generate_and_write_secret directory file_name w).2 in
  (∀ q, q ≠ posixpath.join directory file_name → fs after !! q = fs w !! q)
  ∧ stdout after = stdout w
  ∧ fds after = fds w
  ∧ entropy after = entropy w
  ∧ drawn after = drawn w + 32.
Proof.
  cbv zeta.
  destruct (open_w (fs w) (posixpath.join directory file_name))
    as [e | [t freed]] eqn:Ho.
  - by rewrite (call_open_fails _ _ _ _ Ho).
  - destruct (le_lt_dec 64 (disk_free w + freed)) as [Hroom | Hroom].
    + rewrite (call_writes _ _ _ _ _ Ho Hroom). cbn [snd fs stdout fds].
      split; [| done]. intros q Hq. by rewrite lookup_insert_ne.
    + rewrite (call_write_fails _ _ _ _ _ Ho Hroom). cbn [snd fs stdout fds].
      split; [| done]. intros q Hq. by rewrite lookup_insert_ne.
Qed.

Lemma list_ascii_of_string_app (a b : string) :
  list_ascii_of_string (a +:+ b) =
  (list_ascii_of_string a ++ list_ascii_of_string b)%list.
Proof.
  induction a as [|c a IH]; [done |].
  change (String c a +:+ b) with (String c (a +:+ b)).
  cbn [list_ascii_of_string]. by rewrite IH.
Qed.

Example sample_call :
  generate_and_write_secret "/tmp" "out.txt" sample_world =
  (Ok "/tmp/out.txt", sample_once).
Proof. vm_compute. reflexivity. Qed.

(** * The properties of the specification *)

(** C1. When [generate_and_write_secret] returns, the file at the returned
    path holds exactly the lowercase hexadecimal text of the 32 bytes
    drawn: 64 characters, twice the number of bytes, each in [0-9a-f],
    and no newline at the end. *)
Theorem written_file_is_hex64
    (w w' : world) (directory file_name path : string) :
  generate_and_write_secret directory file_name w = (Ok path, w') →
  ∃ content,
    fs w' !! path = Some (File true content)
    ∧ content = Hex.hex (tape w 32)
    ∧ String.length content = 64
    ∧ String.length content = 2 * length (tape w 32)
    ∧ Forall (λ c, Hex.is_lower_hex c = true) (list_ascii_of_string content)
    ∧ ∀ s, content ≠ s +:+ newline.
Proof.
  intros Hrun. apply call_returns_inv in Hrun as (freed & -> & ->).
  exists (Hex.hex (tape w 32)). cbn [fs].
  rewrite lookup_insert_eq, hex_length, tape_length.
  repeat split; try done.
  - apply hex_lower.
  - intros s E. apply (f_equal list_ascii_of_string) in E.
    rewrite list_ascii_of_string_app in E.
    by apply lower_hex_no_newline in E; [| apply hex_lower].
Qed.

Lemma written_file_is_hex64_witness :
  generate_and_write_secret "/tmp" "out.txt" sample_world =
    (Ok "/tmp/out.txt", sample_once)
  ∧ ∃ content,
      fs sample_once !! "/tmp/out.txt" = Some (File true content)
      ∧ content = Hex.hex (tape sample_world 32)
      ∧ String.length content = 64
      ∧ String.length content = 2 * length (tape sample_world 32)
      ∧ Forall (λ c, Hex.is_lower_hex c = true)
               (list_ascii_of_string content)
      ∧ ∀ s, content ≠ s +:+ newline.
Proof.
  split; [vm_compute; reflexivity |].
  apply (written_file_is_hex64 sample_world sample_once "/tmp" "out.txt").
  vm_compute; reflexivity.
Defined.

(** C2. The path returned is [os.path.join(directory, file_name)], and it
    is the path that was opened and written: the call opened that path
    and no other, and the text is in the file of that name. *)
Theorem returned_path_is_join
    (w w' : world) (directory file_name path : string) :
  generate_and_write_secret directory file_name w = (Ok path, w') →
  path = posixpath.join directory file_name
  ∧ ∃ fd,
      log w' = log w ++ [Urandom 32;
                         Opened (posixpath.join directory file_name) fd;
                         Wrote fd (Hex.hex (tape w 32));
                         Closed fd]
      ∧ fs w' !! posixpath.join directory file_name =
        Some (File true (Hex.hex (tape w 32))).
Proof.
  intros Hrun. apply call_returns_inv in Hrun as (freed & -> & ->).
  split; [done |]. exists (lowest_free (fds w)). cbn [log fs].
  by rewrite lookup_insert_eq.
Qed.

Lemma returned_path_is_join_witness :
  generate_and_write_secret "/tmp" "out.txt" sample_world =
    (Ok "/tmp/out.txt", sample_once)
  ∧ "/tmp/out.txt" = posixpath.join "/tmp" "out.txt"
  ∧ ∃ fd,
      log sample_once =
        log sample_world ++ [Urandom 32;
                             Opened (posixpath.join "/tmp" "out.txt") fd;
                             Wrote fd (Hex.hex (tape sample_world 32));
                             Closed fd]
      ∧ fs sample_once !! posixpath.join "/tmp" "out.txt" =
        Some (File true (Hex.hex (tape sample_world 32))).
Proof.
  split; [vm_compute; reflexivity |].
  apply (returned_path_is_join sample_world sample_once "/tmp" "out.txt").
  vm_compute; reflexivity.
Defined.




(** C4. Two calls in a row with the same directory and file name: both
    return the same path, and after the second the file holds the 64
    characters of the second draw and nothing of the first; the write
    replaces, it does not append. *)
Theorem second_call_replaces
    (w w1 w2 : world) (directory file_name path1 path2 : string) :
  generate_and_write_secret directory file_name w = (Ok path1, w1) →
  generate_and_write_secret directory file_name w1 = (Ok path2, w2) →
  path2 = path1
  ∧ fs w1 !! path1 = Some (File true (Hex.hex (tape w 32)))
  ∧ tape w1 32 = map (entropy w) (seq (drawn w + 32) 32)
  ∧ fs w2 !! path1 = Some (File true (Hex.hex (tape w1 32)))
  ∧ String.length (Hex.hex (tape w1 32)) = 64.
Proof.
  intros H1 H2.
  apply call_returns_inv in H1 as (freed1 & -> & ->).
  apply call_returns_inv in H2 as (freed2 & -> & ->).
  cbn [fs]. rewrite !lookup_insert_eq, hex_length, tape_length.
  done.
Qed.

Lemma second_call_replaces_witness :
  generate_and_write_secret "/tmp" "out.txt" sample_world =
    (Ok "/tmp/out.txt", sample_once)
  ∧ generate_and_write_secret "/tmp" "out.txt" sample_once =
    (Ok "/tmp/out.txt", sample_twice)
  ∧ "/tmp/out.txt" = "/tmp/out.txt"
  ∧ fs sample_once !! "/tmp/out.txt" =
    Some (File true (Hex.hex (tape sample_world 32)))
  ∧ tape sample_once 32 =
    map (entropy sample_world) (seq (drawn sample_world + 32) 32)
  ∧ fs sample_twice !! "/tmp/out.txt" =
    Some (File true (Hex.hex (tape sample_once 32)))
  ∧ String.length (Hex.hex (tape sample_once 32)) = 64.
Proof.
  split; [vm_compute; reflexivity |].
  split; [vm_compute; reflexivity |].
  apply (second_call_replaces sample_world sample_once sample_twice
           "/tmp" "out.txt" "/tmp/out.txt" "/tmp/out.txt");
    vm_compute; reflexivity.
Defined.

(** C5. Two calls in a row whose 32-byte draws differ leave different
    texts: the encoding is injective, so the second call does not
    reproduce what the first wrote, and on one path the file's content
    changes. *)
Theorem different_draws_different_secrets
    (w w1 w2 : world) (directory1 file_name1 directory2 file_name2 : string)
    (path1 path2 : string) :
  generate_and_write_secret directory1 file_name1 w = (Ok path1, w1) →
  generate_and_write_secret directory2 file_name2 w1 = (Ok path2, w2) →
  tape w 32 ≠ tape w1 32 →
  ∃ secret1 secret2,
    fs w1 !! path1 = Some (File true secret1)
    ∧ fs w2 !! path2 = Some (File true secret2)
    ∧ String.length secret1 = 64
    ∧ String.length secret2 = 64
    ∧ secret1 ≠ secret2
    ∧ (path1 = path2 → fs w2 !! path1 ≠ fs w1 !! path1).
Proof.
  intros H1 H2 Hdiff.
  apply call_returns_inv in H2 as (freed2 & -> & ->).
  exists (Hex.hex (tape w 32)), (Hex.hex (tape w1 32)).
  assert (Hex.hex (tape w 32) ≠ Hex.hex (tape w1 32)) as Hne
    by (intros E; by apply hex_inj in E).
  pose proof (tape_length w1 32) as Hlen2.
  clear Hdiff. revert Hne Hlen2. generalize (tape w1 32) as draw2.
  intros draw2 Hne Hlen2.
  apply call_returns_inv in H1 as (freed1 & -> & ->).
  cbn [fs]. rewrite !lookup_insert_eq, !hex_length, tape_length, Hlen2.
  repeat split; try done.
  intros <-. rewrite lookup_insert_eq. congruence.
Qed.

Lemma different_draws_different_secrets_witness :
  generate_and_write_secret "/tmp" "out.txt" sample_world =
    (Ok "/tmp/out.txt", sample_once)
  ∧ generate_and_write_secret "/tmp" "out.txt" sample_once =
    (Ok "/tmp/out.txt", sample_twice)
  ∧ tape sample_world 32 ≠ tape sample_once 32
  ∧ ∃ secret1 secret2,
      fs sample_once !! "/tmp/out.txt" = Some (File true secret1)
      ∧ fs sample_twice !! "/tmp/out.txt" = Some (File true secret2)
      ∧ String.length secret1 = 64
      ∧ String.length secret2 = 64
      ∧ secret1 ≠ secret2
      ∧ ("/tmp/out.txt" = "/tmp/out.txt" →
         fs sample_twice !! "/tmp/out.txt" ≠ fs sample_once !! "/tmp/out.txt").
Proof.
  split; [vm_compute; reflexivity |].
  split; [vm_compute; reflexivity |].
  split; [vm_compute; discriminate |].
  apply (different_draws_different_secrets sample_world sample_once
           sample_twice "/tmp" "out.txt" "/tmp" "out.txt");
    [vm_compute; reflexivity | vm_compute; reflexivity
    | vm_compute; discriminate].
Defined.

(** C6. A call changes at most the file at the joined path, and when it
    returns it has created or overwritten exactly that file.  Every other
    entry of the file tree is what it was, nothing is printed, no
    descriptor stays open, and what the call did is: draw random bytes,
    open that path, write to it, close it. *)
Theorem only_the_target_changes (w : world) (directory file_name : string) :
  let path := posixpath.join directory file_name in
  let outcome := generate_and_write_secret directory file_name w in
  (∀ q, q ≠ path → fs outcome.2 !! q = fs w !! q)
  ∧ stdout outcome.2 = stdout w
  ∧ fds outcome.2 = fds w
  ∧ (∃ new, log outcome.2 = log w ++ new
            ∧ Forall (touches path (lowest_free (fds w))) new)
  ∧ (∀ returned, outcome.1 = Ok returned →
       returned = path
       ∧ fs outcome.2 = <[path := File true (Hex.hex (tape w 32))]> (fs w)).
Proof.
  intros path outcome.
  destruct (call_frame w directory file_name) as (Hfs & Hout & Hfds & _).
  split; [exact Hfs |]. split; [exact Hout |]. split; [exact Hfds |].
  subst outcome. fold path in Hfs |- *.
  destruct (open_w (fs w) path) as [e | [t freed]] eqn:Ho.
  - rewrite (call_open_fails _ _ _ _ Ho). cbn [fst snd log]. split.
    + eexists. split; [reflexivity |].
      constructor; [done | apply open_failure_effects_touch].
    + intros returned Hret. discriminate Hret.
  - destruct (le_lt_dec 64 (disk_free w + freed)) as [Hroom | Hroom].
    + rewrite (call_writes _ _ _ _ _ Ho Hroom). cbn [fst snd log fs]. split.
      * eexists. split; [reflexivity |]. by repeat constructor.
      * intros returned Hret. by inversion Hret.
    + rewrite (call_write_fails _ _ _ _ _ Ho Hroom). cbn [fst snd log].
      split.
      * eexists. split; [reflexivity |]. by repeat constructor.
      * intros returned Hret. discriminate Hret.
Qed.

Lemma only_the_target_changes_witness :
  (generate_and_write_secret "/ro" "keep.txt" sample_world).1 =
    Ok "/ro/keep.txt"
  ∧ "/ro/keep.txt" = posixpath.join "/ro" "keep.txt"
  ∧ fs (generate_and_write_secret "/ro" "keep.txt" sample_world).2 =
    <[posixpath.join "/ro" "keep.txt" :=
        File true (Hex.hex (tape sample_world 32))]> (fs sample_world).
Proof.
  split; [vm_compute; reflexivity |].
  apply (only_the_target_changes sample_world "/ro" "keep.txt").
  vm_compute; reflexivity.
Defined.

(** C7. Run as the main module, the script calls
    [generate_and_write_secret("./crypto_data", "link_secret.txt")] and
    then prints the one line [Saved LinkSecretFile to <path>], where
    <path> is the path returned, and nothing else. *)
Theorem entry_point_prints (w w1 : world) (path : string) :
  generate_and_write_secret "./crypto_data" "link_secret.txt" w
    = (Ok path, w1) →
  path = "./crypto_data/link_secret.txt"
  ∧ ∃ w2,
      script "__main__" w = (Ok tt, w2)
      ∧ stdout w2 =
        stdout w +:+ "Saved LinkSecretFile to " +:+ path +:+ newline
      ∧ log w2 = log w1 ++ [Printed ("Saved LinkSecretFile to " +:+ path)]
      ∧ fs w2 = fs w1
      ∧ fds w2 = fds w1.
Proof.
  intros Hrun.
  assert (script "__main__" w =
          print ("Saved LinkSecretFile to " +:+ path) w1) as Hscript.
  { change (script "__main__") with main.
    unfold main, bind. by rewrite Hrun. }
  apply call_returns_inv in Hrun as (freed & -> & ->).
  split; [reflexivity |]. eexists. split; [exact Hscript |]. done.
Qed.

Lemma entry_point_prints_witness :
  generate_and_write_secret "./crypto_data" "link_secret.txt" sample_world
    = (Ok "./crypto_data/link_secret.txt",
       (generate_and_write_secret "./crypto_data" "link_secret.txt"
          sample_world).2)
  ∧ ∃ w2,
      script "__main__" sample_world = (Ok tt, w2)
      ∧ stdout w2 =
        stdout sample_world +:+ "Saved LinkSecretFile to "
          +:+ "./crypto_data/link_secret.txt" +:+ newline.
Proof.
  split; [vm_compute; reflexivity |].
  destruct (entry_point_prints sample_world
              (generate_and_write_secret "./crypto_data" "link_secret.txt"
                 sample_world).2
              "./crypto_data/link_secret.txt")
    as (_ & w2 & Hscript & Hout & _); [vm_compute; reflexivity |].
  exists w2. split; [exact Hscript | exact Hout].
Defined.

(** C8. However a call ends, by returning, by a failed open, or by a
    write that fails partway, the descriptor it opened is closed before
    the call ends: the close is the last thing the call does, and the
    table of open descriptors is what it was before the call. *)
Theorem handle_always_released (w : world) (directory file_name : string) :
  let outcome := generate_and_write_secret directory file_name w in
  fds outcome.2 = fds w
  ∧ ∃ new,
      log outcome.2 = log w ++ new
      ∧ ∀ path fd,
          In (Opened path fd) new →
          last new = Some (Closed fd) ∧ fds outcome.2 !! fd = None.
Proof.
  intros outcome. subst outcome.
  set (path := posixpath.join directory file_name).
  destruct (open_w (fs w) path) as [e | [t freed]] eqn:Ho.
  - rewrite (call_open_fails _ _ _ _ Ho). cbn [snd log fds].
    split; [done |]. eexists. split; [reflexivity |].
    intros q fd [E | Hin]; [discriminate E |].
    by apply open_failure_effects_no_open in Hin.
  - destruct (le_lt_dec 64 (disk_free w + freed)) as [Hroom | Hroom].
    + rewrite (call_writes _ _ _ _ _ Ho Hroom). cbn [snd log fds].
      split; [done |]. eexists. split; [reflexivity |].
      intros q fd [E | [E | [E | [E | []]]]]; try discriminate E.
      inversion E; subst. split; [done | apply lowest_free_fresh].
    + rewrite (call_write_fails _ _ _ _ _ Ho Hroom). cbn [snd log fds].
      split; [done |]. eexists. split; [reflexivity |].
      intros q fd [E | [E | [E | [E | []]]]]; try discriminate E.
      inversion E; subst. split; [done | apply lowest_free_fresh].
Qed.

Lemma handle_always_released_witness :
  (generate_and_write_secret "/tmp" "out.txt" full_world).1 =
    Raise (OSError ENOSPC)
  ∧ fs (generate_and_write_secret "/tmp" "out.txt" full_world).2
      !! "/tmp/out.txt" = Some (File true "0b30557a9f")
  ∧ fds (generate_and_write_secret "/tmp" "out.txt" full_world).2 =
    fds full_world.
Proof.
  split; [vm_compute; reflexivity |].
  split; [vm_compute; reflexivity |].
  apply (handle_always_released full_world "/tmp" "out.txt").
Defined.

(** C9. When a call returns, reading the file's content back with
    [bytes.fromhex] gives the 32 bytes that were drawn. *)
Theorem written_secret_decodes
    (w w' : world) (directory file_name path : string) :
  generate_and_write_secret directory file_name w = (Ok path, w') →
  ∃ content,
    fs w' !! path = Some (File true content)
    ∧ Hex.fromhex content = Some (tape w 32)
    ∧ length (tape w 32) = 32.
Proof.
  intros Hrun. apply call_returns_inv in Hrun as (freed & -> & ->).
  exists (Hex.hex (tape w 32)). cbn [fs].
  by rewrite lookup_insert_eq, fromhex_hex, tape_length.
Qed.

Lemma written_secret_decodes_witness :
  generate_and_write_secret "/tmp" "out.txt" sample_world =
    (Ok "/tmp/out.txt", sample_once)
  ∧ ∃ content,
      fs sample_once !! "/tmp/out.txt" = Some (File true content)
      ∧ Hex.fromhex content = Some (tape sample_world 32)
      ∧ length (tape sample_world 32) = 32.
Proof.
  split; [vm_compute; reflexivity |].
  apply (written_secret_decodes sample_world sample_once "/tmp" "out.txt").
  vm_compute; reflexivity.
Defined.

(** C10. When [file_name] is absolute, the directory plays no part: the
    join is [file_name], the call does the same whatever the directory
    is, and when it returns it returns [file_name] and the text is in the
    file of that name. *)
Theorem absolute_file_name_wins (w : world) (directory file_name : string) :
  posixpath.isabs file_name = true →
  posixpath.join directory file_name = file_name
  ∧ (∀ other,
       generate_and_write_secret other file_name w =
       generate_and_write_secret directory file_name w)
  ∧ ∀ path w',
      generate_and_write_secret directory file_name w = (Ok path, w') →
      path = file_name
      ∧ fs w' !! file_name = Some (File true (Hex.hex (tape w 32))).
Proof.
  intros Habs.
  assert (∀ d, posixpath.join d file_name = file_name) as Hjoin.
  { intros d. unfold posixpath.join.
    unfold posixpath.isabs in Habs. by rewrite Habs. }
  split; [apply Hjoin |]. split.
  - intros other. unfold generate_and_write_secret.
    by rewrite !Hjoin.
  - intros path w' Hrun.
    apply call_returns_inv in Hrun as (freed & -> & ->).
    rewrite Hjoin. split; [done |]. cbn [fs]. by rewrite lookup_insert_eq.
Qed.

Lemma absolute_file_name_wins_witness :
  posixpath.isabs "/tmp/out.txt" = true
  ∧ posixpath.join "/no/such/dir" "/tmp/out.txt" = "/tmp/out.txt"
  ∧ generate_and_write_secret "/no/such/dir" "/tmp/out.txt" sample_world =
    (Ok "/tmp/out.txt", sample_once).
Proof.
  split; [vm_compute; reflexivity |].
  destruct (absolute_file_name_wins sample_world "/tmp" "/tmp/out.txt")
    as (_ & Hsame & _); [vm_compute; reflexivity |].
  split; [vm_compute; reflexivity |].
  rewrite (Hsame "/no/such/dir"). vm_compute; reflexivity.
Defined.

(** * Further properties of the code *)

(** ** Helper facts *)

Lemma substring_prefix (n : nat) (s : string) :
  String.prefix (String.substring 0 n s) s = true.
Proof.
  revert n. induction s as [|c s IH]; intros [|n]; try reflexivity.
  cbn [String.substring String.prefix].
  destruct (ascii_dec c c) as [_ | Hne]; [apply IH | by destruct Hne].
Qed.

Lemma substring_length (n : nat) (s : string) :
  n ≤ String.length s → String.length (String.substring 0 n s) = n.
Proof.
  revert n. induction s as [|c s IH]; intros [|n] Hn; try reflexivity.
  - cbn [String.length] in Hn. lia.
  - cbn [String.length] in Hn. cbn [String.substring String.length].
    rewrite IH; lia.
Qed.

Lemma open_w_not_directory
    (t t' : gmap string node) (p : string) (freed : nat) (dw : bool) :
  open_w t p = inr (t', freed) → t !! p ≠ Some (Dir dw).
Proof.
  unfold open_w. intros H Hdir.
  destruct (has_nul p); [done |].
  destruct (String.eqb p ""); [done |].
  destruct (PATH_MAX <=? _)%nat; [done |].
  destruct (t !! posixpath.parent p) as [[? | ? ?] |]; try done.
  destruct (NAME_MAX <? _)%nat; [done |].
  destruct (_ || _); [done |].
  by rewrite Hdir in H.
Qed.




(** What a call adds to the log, whatever its outcome. *)
Lemma call_log (w : world) (directory file_name : string) :
  ∃ new,
    log (generate_and_write_secret directory file_name w).2 = log w ++ new
    ∧ Forall (touches (posixpath.join directory file_name)
                      (lowest_free (fds w))) new.
Proof.
  destruct (open_w (fs w) (posixpath.join directory file_name))
    as [e | [t freed]] eqn:Ho.
  - rewrite (call_open_fails _ _ _ _ Ho). cbn [snd log].
    eexists. split; [reflexivity |].
    constructor; [done | apply open_failure_effects_touch].
  - destruct (le_lt_dec 64 (disk_free w + freed)) as [Hroom | Hroom].
    + rewrite (call_writes _ _ _ _ _ Ho Hroom). cbn [snd log].
      eexists. split; [reflexivity |]. by repeat constructor.
    + rewrite (call_write_fails _ _ _ _ _ Ho Hroom). cbn [snd log].
      eexists. split; [reflexivity |]. by repeat constructor.
Qed.

(** The main block is the call followed by the print. *)
Lemma script_main (w : world) :
  script "__main__" w =
  match generate_and_write_secret "./crypto_data" "link_secret.txt" w with
  | (Ok path, w1) => print ("Saved LinkSecretFile to " +:+ path) w1
  | (Raise e, w1) => (Raise e, w1)
  end.
Proof. reflexivity. Qed.

(** ** The properties *)

(** X1. The write is not atomic.  When the file was opened (and so
    emptied) but the device takes fewer than the 64 characters, the call
    raises OSError(ENOSPC) and the file is left holding only the part of
    the new text that was written: what it held before is gone. *)
Theorem failed_write_leaves_partial_text
    (w : world) (directory file_name : string)
    (t : gmap string node) (freed : nat) :
  let path := posixpath.join directory file_name in
  let outcome := generate_and_write_secret directory file_name w in
  open_w (fs w) path = inr (t, freed) →
  disk_free w + freed < 64 →
  outcome.1 = Raise (OSError ENOSPC)
  ∧ ∃ part,
      fs outcome.2 !! path = Some (File true part)
      ∧ String.prefix part (Hex.hex (tape w 32)) = true
      ∧ String.length part = disk_free w + freed
      ∧ String.length part < 64.
Proof.
  intros path outcome Ho Hroom. subst outcome path.
  rewrite (call_write_fails _ _ _ _ _ Ho Hroom). cbn [fst snd fs].
  split; [done |]. eexists. rewrite lookup_insert_eq.
  split; [reflexivity |]. split; [apply substring_prefix |].
  rewrite substring_length; [done |].
  rewrite hex_length, tape_length. lia.
Qed.

Lemma failed_write_leaves_partial_text_witness :
  fs full_world !! "/ro/keep.txt" = Some (File true "old")
  ∧ (generate_and_write_secret "/ro" "keep.txt" full_world).1 =
    Raise (OSError ENOSPC)
  ∧ ∃ part,
      fs (generate_and_write_secret "/ro" "keep.txt" full_world).2
        !! posixpath.join "/ro" "keep.txt" = Some (File true part)
      ∧ String.prefix part (Hex.hex (tape full_world 32)) = true
      ∧ String.length part = disk_free full_world + 3
      ∧ String.length part < 64.
Proof.
  split; [vm_compute; reflexivity |].
  apply (failed_write_leaves_partial_text full_world "/ro" "keep.txt"
           (<["/ro/keep.txt" := File true ""]> (fs full_world)) 3).
  - vm_compute; reflexivity.
  - vm_compute; lia.
Defined.

(** X2. When the call made by the main block raises, the script raises
    the same exception and prints nothing: the confirmation line appears
    only after a call that returned. *)
Theorem entry_point_failure_prints_nothing (w w1 : world) (e : exn) :
  generate_and_write_secret "./crypto_data" "link_secret.txt" w
    = (Raise e, w1) →
  script "__main__" w = (Raise e, w1)
  ∧ stdout w1 = stdout w
  ∧ ∃ new, log w1 = log w ++ new ∧ ∀ text, ¬ In (Printed text) new.
Proof.
  intros Hrun.
  split; [by rewrite script_main, Hrun |].
  destruct (call_frame w "./crypto_data" "link_secret.txt")
    as (_ & Hout & _).
  destruct (call_log w "./crypto_data" "link_secret.txt")
    as (new & Hlog & Hnew).
  rewrite Hrun in Hout, Hlog. cbn [snd] in Hout, Hlog.
  split; [exact Hout |]. exists new. split; [exact Hlog |].
  intros text Hin. rewrite Forall_forall in Hnew.
  apply list_elem_of_In in Hin. exact (Hnew _ Hin).
Qed.

Lemma entry_point_failure_prints_nothing_witness :
  generate_and_write_secret "./crypto_data" "link_secret.txt" full_world
    = (Raise (OSError ENOSPC),
       (generate_and_write_secret "./crypto_data" "link_secret.txt"
          full_world).2)
  ∧ script "__main__" full_world
    = (Raise (OSError ENOSPC),
       (generate_and_write_secret "./crypto_data" "link_secret.txt"
          full_world).2)
  ∧ stdout (generate_and_write_secret "./crypto_data" "link_secret.txt"
              full_world).2 = stdout full_world.
Proof.
  split; [vm_compute; reflexivity |].
  destruct (entry_point_failure_prints_nothing full_world
              (generate_and_write_secret "./crypto_data" "link_secret.txt"
                 full_world).2 (OSError ENOSPC))
    as (Hscript & Hout & _); [vm_compute; reflexivity |].
  split; [exact Hscript | exact Hout].
Defined.

(** X3. A call never creates, removes or changes a directory: the
    directories of the file tree after the call, whatever its outcome,
    are those before it.  In particular a missing directory is not
    made. *)
Theorem directories_never_change
    (w : world) (directory file_name q : string) (dw : bool) :
  fs (generate_and_write_secret directory file_name w).2 !! q = Some (Dir dw)
  ↔ fs w !! q = Some (Dir dw).
Proof.
  set (path := posixpath.join directory file_name).
  destruct (open_w (fs w) path) as [e | [t freed]] eqn:Ho.
  - by rewrite (call_open_fails _ _ _ _ Ho).
  - pose proof (open_w_not_directory _ _ _ _ dw Ho) as Hnot.
    assert (∀ content,
              <[path := File true content]> (fs w) !! q = Some (Dir dw)
              ↔ fs w !! q = Some (Dir dw)) as Hins.
    { intros content. destruct (decide (path = q)) as [<- | Hne].
      - rewrite lookup_insert_eq. split; [discriminate | done].
      - by rewrite lookup_insert_ne. }
    destruct (le_lt_dec 64 (disk_free w + freed)) as [Hroom | Hroom].
    + rewrite (call_writes _ _ _ _ _ Ho Hroom). apply Hins.
    + rewrite (call_write_fails _ _ _ _ _ Ho Hroom). apply Hins.
Qed.

(** X4. The secret goes to the file and nowhere else.  With another
    entropy tape, all else equal, a call returns the same path or raises
    the same exception, and the script ends the same way and leaves the
    same standard output: neither the value returned, nor the error, nor
    what is printed depends on the random bytes. *)
Theorem outcome_independent_of_secret
    (w : world) (other : nat → byte) (directory file_name : string) :
  (generate_and_write_secret directory file_name (set_entropy other w)).1 =
  (generate_and_write_secret directory file_name w).1
  ∧ (script "__main__" (set_entropy other w)).1 = (script "__main__" w).1
  ∧ stdout (script "__main__" (set_entropy other w)).2 =
    stdout (script "__main__" w).2.
Proof.
  assert (∀ d f,
            (generate_and_write_secret d f (set_entropy other w)).1 =
            (generate_and_write_secret d f w).1
            ∧ stdout (generate_and_write_secret d f (set_entropy other w)).2
              = stdout (generate_and_write_secret d f w).2) as Hcall.
  { intros d f.
    destruct (open_w (fs w) (posixpath.join d f)) as [e | [t freed]] eqn:Ho.
    - by rewrite (call_open_fails w _ _ _ Ho),
        (call_open_fails (set_entropy other w) _ _ _ Ho).
    - destruct (le_lt_dec 64 (disk_free w + freed)) as [Hroom | Hroom].
      + by rewrite (call_writes w _ _ _ _ Ho Hroom),
          (call_writes (set_entropy other w) _ _ _ _ Ho Hroom).
      + by rewrite (call_write_fails w _ _ _ _ Ho Hroom),
          (call_write_fails (set_entropy other w) _ _ _ _ Ho Hroom). }
  split; [apply Hcall |].
  rewrite !script_main.
  destruct (Hcall "./crypto_data" "link_secret.txt") as [Hres Hout].
  destruct (generate_and_write_secret _ _ (set_entropy other w))
    as [[path' | e'] w1'];
    destruct (generate_and_write_secret _ _ w) as [[path | e] w1];
    cbn [fst snd] in Hres, Hout; try discriminate Hres.
  - inversion Hres; subst. unfold print. cbn [fst snd stdout emit set_stdout].
    by rewrite Hout.
  - inversion Hres; subst. done.
Qed.






(** X8. The bytes are drawn before the file is opened, so a call uses up
    32 bytes of entropy even when it fails.  Whatever the first call did,
    a second call that returns writes the text of the next 32 bytes,
    none of which the first call saw. *)
Theorem every_call_draws_fresh_bytes
    (w w2 : world)
    (directory1 file_name1 directory2 file_name2 path : string) :
  let w1 := (generate_and_write_secret directory1 file_name1 w).2 in
  generate_and_write_secret directory2 file_name2 w1 = (Ok path, w2) →
  drawn w1 = drawn w + 32
  ∧ drawn w2 = drawn w + 64
  ∧ fs w2 !! path =
    Some (File true (Hex.hex (map (entropy w) (seq (drawn w + 32) 32)))).
Proof.
  intros w1 Hrun.
  destruct (call_frame w directory1 file_name1)
    as (_ & _ & _ & Hent & Hdrawn).
  fold w1 in Hent, Hdrawn.
  apply call_returns_inv in Hrun as (freed & -> & ->).
  cbn [drawn fs]. rewrite lookup_insert_eq.
  unfold tape. rewrite Hent, Hdrawn.
  split; [done |]. split; [lia | done].
Qed.

Lemma every_call_draws_fresh_bytes_witness :
  (generate_and_write_secret "/no/such/dir" "out.txt" sample_world).1 =
    Raise (OSError ENOENT)
  ∧ drawn (generate_and_write_secret "/tmp" "out.txt"
             (generate_and_write_secret "/no/such/dir" "out.txt"
                sample_world).2).2 = drawn sample_world + 64.
Proof.
  split; [vm_compute; reflexivity |].
  apply (every_call_draws_fresh_bytes sample_world
           (generate_and_write_secret "/tmp" "out.txt"
              (generate_and_write_secret "/no/such/dir" "out.txt"
                 sample_world).2).2
           "/no/such/dir" "out.txt" "/tmp" "out.txt" "/tmp/out.txt").
  vm_compute; reflexivity.
Defined.

Lemma prefix_append (a b : string) : String.prefix a (a +:+ b) = true.
Proof.
  induction a as [|c a IH]; [by destruct b |].
  change (String c a +:+ b) with (String c (a +:+ b)).
  cbn [String.prefix].
  destruct (ascii_dec c c) as [_ | Hne]; [exact IH | by destruct Hne].
Qed.

Lemma append_assoc3 (a b c : string) : (a +:+ b) +:+ c = a +:+ b +:+ c.
Proof.
  induction a as [|x a IH]; [done |].
  change ((String x a +:+ b) +:+ c) with (String x ((a +:+ b) +:+ c)).
  change (String x a +:+ b +:+ c) with (String x (a +:+ b +:+ c)).
  by rewrite IH.
Qed.

(** X10. The path a call returns always ends in the file name given; and
    when the file name is relative the path begins with the directory
    given, with at most one separator put between the two. *)
Theorem returned_path_shape
    (w w' : world) (directory file_name path : string) :
  generate_and_write_secret directory file_name w = (Ok path, w') →
  (∃ before, path = before +:+ file_name)
  ∧ (posixpath.isabs file_name = false →
     String.prefix directory path = true
     ∧ (path = directory +:+ file_name
        ∨ path = directory +:+ "/" +:+ file_name)).
Proof.
  intros Hrun. apply call_returns_inv in Hrun as (_ & -> & _).
  unfold posixpath.join, posixpath.isabs.
  destruct (posixpath.startswith_sep file_name).
  - split; [exists ""; reflexivity | discriminate].
  - destruct (_ || _).
    + split; [by exists directory |]. intros _.
      split; [apply prefix_append | by left].
    + split; [exists (directory +:+ "/"); by rewrite append_assoc3 |].
      intros _.
      split; [apply prefix_append | by right].
Qed.

Lemma returned_path_shape_witness :
  generate_and_write_secret "/tmp" "out.txt" sample_world =
    (Ok "/tmp/out.txt", sample_once)
  ∧ (∃ before, "/tmp/out.txt" = before +:+ "out.txt")
  ∧ (posixpath.isabs "out.txt" = false →
     String.prefix "/tmp" "/tmp/out.txt" = true
     ∧ ("/tmp/out.txt" = "/tmp" +:+ "out.txt"
        ∨ "/tmp/out.txt" = "/tmp" +:+ "/" +:+ "out.txt")).
Proof.
  split; [vm_compute; reflexivity |].
  apply (returned_path_shape sample_world sample_once "/tmp" "out.txt").
  vm_compute; reflexivity.
Defined.
